(** * The qtile command graph ([libqtile/command_graph.py])

    A shallow embedding of the command-graph module: the node classes, the
    per-class schema ([object_type], [children]), the constructor dictionary
    [_CommandGraphMap], [navigate], the derived [selectors] and [path]
    properties and the formatter [_format_selectors]; followed by the
    properties of the module's specification. *)

From stdpp Require Import base option list strings gmap.

Open Scope string_scope.

(** ** Data model *)

(** [SelectorType = Tuple[str, Optional[str]]]. *)
Definition SelectorType : Type := string * option string.

(** The six concrete subclasses of [CommandGraphObject]. *)
Inductive ObjectClass : Type :=
| _BarGraphNode
| _GroupGraphNode
| _LayoutGraphNode
| _ScreenGraphNode
| _WidgetGraphNode
| _WindowGraphNode.

#[global] Instance ObjectClass_eq_dec : EqDecision ObjectClass.
Proof. solve_decision. Defined.

(** The class attribute [object_type] of each subclass. *)
Definition object_type (cls : ObjectClass) : string :=
  match cls with
  | _BarGraphNode => "bar"
  | _GroupGraphNode => "group"
  | _LayoutGraphNode => "layout"
  | _ScreenGraphNode => "screen"
  | _WidgetGraphNode => "widget"
  | _WindowGraphNode => "window"
  end.

(** The class attribute [children] of each subclass, in source order. *)
Definition class_children (cls : ObjectClass) : list string :=
  match cls with
  | _BarGraphNode => ["screen"]
  | _GroupGraphNode => ["layout"; "window"; "screen"]
  | _LayoutGraphNode => ["group"; "window"; "screen"]
  | _ScreenGraphNode => ["layout"; "window"; "bar"]
  | _WidgetGraphNode => ["bar"; "screen"; "group"]
  | _WindowGraphNode => ["group"; "screen"; "layout"]
  end.

(** The module-level dictionary from kind names to constructors. *)
Definition _CommandGraphMap : gmap string ObjectClass :=
  <["screen" := _ScreenGraphNode]>
  (<["window" := _WindowGraphNode]>
  (<["widget" := _WidgetGraphNode]>
  (<["layout" := _LayoutGraphNode]>
  (<["group" := _GroupGraphNode]>
  (<["bar" := _BarGraphNode]> ∅))))).

(** Container nodes: the root, or an object of one of the six classes
    holding its [_selector] and its [_parent]. *)
Inductive CommandGraphContainer : Type :=
| CommandGraphRoot
| CommandGraphObject (cls : ObjectClass) (_selector : option string)
                     (_parent : CommandGraphContainer).

(** Any node: a container, or a terminal [CommandGraphCall] holding its
    [_name] and its [_parent]. *)
Inductive _CommandGraphNode : Type :=
| Container (c : CommandGraphContainer)
| CommandGraphCall (_name : string) (_parent : CommandGraphContainer).

#[global] Instance CommandGraphContainer_eq_dec : EqDecision CommandGraphContainer.
Proof. solve_decision. Defined.

#[global] Instance _CommandGraphNode_eq_dec : EqDecision _CommandGraphNode.
Proof. solve_decision. Defined.

(** ** Exceptions

    [navigate] either returns a node or raises.  Python's [KeyError] carries
    its argument: the missing key for a failed dictionary subscript, the
    formatted message for the explicit [raise]. *)
Inductive Exception : Type :=
| KeyError (arg : string)
| AttributeError (attr : string).

Inductive Result (A : Type) : Type :=
| Return (a : A)
| Raise (e : Exception).
Arguments Return {A} a.
Arguments Raise {A} e.

#[global] Instance Exception_eq_dec : EqDecision Exception.
Proof. solve_decision. Defined.

(** The error raised at line 89 for the name [name]. *)
Definition NotAnObject (name : string) : Exception :=
  KeyError ("Given node is not an object: " +:+ name).

Definition succeeds {A : Type} (r : Result A) : Prop :=
  match r with Return _ => True | Raise _ => False end.

Definition raises {A : Type} (r : Result A) : Prop :=
  match r with Return _ => False | Raise _ => True end.

(** ** Path formatting *)

(** [sep.join(l)]. *)
Fixpoint str_join (sep : string) (l : list string) : string :=
  match l with
  | [] => ""
  | [x] => x
  | x :: rest => x +:+ sep +:+ str_join sep rest
  end.

(** [_format_selectors]: the loop appends one element per selector to
    [path_elements], which is then joined with a dot. *)
Definition _format_selectors (selectors : list SelectorType) : string :=
  let path_elements :=
    fold_left
      (fun (path_elements : list string) (step : SelectorType) =>
         let '(name, selector) := step in
         match selector with
         | Some sel => (path_elements ++ [name +:+ "[" +:+ sel +:+ "]"])%list
         | None => (path_elements ++ [name])%list
         end)
      selectors [] in
  str_join "." path_elements.

(** ** Properties and methods of container nodes *)
Module Container.

(** [CommandGraphRoot.selector] is [None]; an object returns [_selector]. *)
Definition selector (self : CommandGraphContainer) : option string :=
  match self with
  | CommandGraphRoot => None
  | CommandGraphObject _ _selector _ => _selector
  end.

Definition parent (self : CommandGraphContainer) : option CommandGraphContainer :=
  match self with
  | CommandGraphRoot => None
  | CommandGraphObject _ _ _parent => Some _parent
  end.

Definition children (self : CommandGraphContainer) : list string :=
  match self with
  | CommandGraphRoot => ["bar"; "group"; "layout"; "screen"; "widget"; "window"]
  | CommandGraphObject cls _ _ => class_children cls
  end.

Fixpoint selectors (self : CommandGraphContainer) : list SelectorType :=
  match self with
  | CommandGraphRoot => []
  | CommandGraphObject cls _selector _parent =>
      (selectors _parent ++ [(object_type cls, _selector)])%list
  end.

Definition path (self : CommandGraphContainer) : string :=
  _format_selectors (selectors self).

(** The parent chain of a container: [self.parent], its parent, and so on,
    until a node whose [parent] is [None]. *)
Fixpoint ancestors (self : CommandGraphContainer) : list CommandGraphContainer :=
  match self with
  | CommandGraphRoot => []
  | CommandGraphObject _ _ _parent => _parent :: ancestors _parent
  end.

(** [navigate]: the three-way branch of lines 86-91.  The subscript
    [_CommandGraphMap[name]] raises [KeyError(name)] on a missing key. *)
Definition navigate (self : CommandGraphContainer) (name : string)
    (selector : option string) : Result _CommandGraphNode :=
  if decide (name ∈ children self) then
    match _CommandGraphMap !! name with
    | Some cls => Return (Container (CommandGraphObject cls selector self))
    | None => Raise (KeyError name)
    end
  else
    match selector with
    | Some _ => Raise (NotAnObject name)
    | None => Return (CommandGraphCall name self)
    end.

End Container.

(** ** Properties of arbitrary nodes (dispatch on the node's class) *)

Definition parent (self : _CommandGraphNode) : option CommandGraphContainer :=
  match self with
  | Container c => Container.parent c
  | CommandGraphCall _ _parent => Some _parent
  end.

Definition selectors (self : _CommandGraphNode) : list SelectorType :=
  match self with
  | Container c => Container.selectors c
  | CommandGraphCall _ _parent => Container.selectors _parent
  end.

(** [CommandGraphCall.path] tests the truthiness of [parent_path], that is,
    whether the string is non-empty. *)
Definition path (self : _CommandGraphNode) : string :=
  match self with
  | Container c => Container.path c
  | CommandGraphCall _name _parent =>
      let parent_path := Container.path _parent in
      match parent_path with
      | EmptyString => _name
      | String _ _ => parent_path +:+ "." +:+ _name
      end
  end.

(** [CommandGraphCall.name]; containers have no such attribute. *)
Definition name (self : _CommandGraphNode) : option string :=
  match self with
  | Container _ => None
  | CommandGraphCall _name _ => Some _name
  end.

(** The class-level [object_type] of a node, where it has one. *)
Definition node_object_type (self : _CommandGraphNode) : option string :=
  match self with
  | Container (CommandGraphObject cls _ _) => Some (object_type cls)
  | _ => None
  end.

(** The parent chain of any node. *)
Definition ancestors (self : _CommandGraphNode) : list CommandGraphContainer :=
  match self with
  | Container c => Container.ancestors c
  | CommandGraphCall _ _parent => _parent :: Container.ancestors _parent
  end.

Definition is_container (self : _CommandGraphNode) : bool :=
  match self with
  | Container _ => true
  | CommandGraphCall _ _ => false
  end.

(** ** Sequences of navigation steps

    A client address is a list of [(name, selector)] pairs fed one at a time
    into [navigate], each step applied to the node the previous one returned.
    [navigate_steps] returns the nodes produced, in order.  A
    [CommandGraphCall] has no [navigate] method, so a step taken from one
    raises [AttributeError]. *)
Fixpoint navigate_steps (node : _CommandGraphNode) (steps : list SelectorType)
    : Result (list _CommandGraphNode) :=
  match steps with
  | [] => Return []
  | (name, selector) :: rest =>
      match node with
      | CommandGraphCall _ _ => Raise (AttributeError "navigate")
      | Container c =>
          match Container.navigate c name selector with
          | Raise e => Raise e
          | Return n =>
              match navigate_steps n rest with
              | Raise e => Raise e
              | Return produced => Return (n :: produced)
              end
          end
      end
  end.

(** The node a sequence ends at: the last node produced, or the start. *)
Definition final_node (start : _CommandGraphNode) (produced : list _CommandGraphNode)
    : _CommandGraphNode :=
  default start (last produced).

(** The number of steps of a sequence that produced a container. *)
Definition container_steps (produced : list _CommandGraphNode) : nat :=
  length (filter (λ n, is_container n = true) produced).

(** ** The specification's wording of the formatter and of the schema *)

(** A step is rendered as [kind[selector]] when the selector is present and
    as [kind] otherwise. *)
Definition spec_render_step (step : SelectorType) : string :=
  match step with
  | (kind, Some sel) => kind +:+ "[" +:+ sel +:+ "]"
  | (kind, None) => kind
  end.

(** [format_path]: the rendered steps joined with a dot. *)
Definition spec_format_path (steps : list SelectorType) : string :=
  String.concat "." (map spec_render_step steps).

(** The adjacency table of the specification, one row per object kind. *)
Definition spec_adjacency : gmap string (gset string) :=
  list_to_map
    [ ("bar", {[ "screen" ]});
      ("group", {[ "layout"; "window"; "screen" ]});
      ("layout", {[ "group"; "window"; "screen" ]});
      ("screen", {[ "layout"; "window"; "bar" ]});
      ("widget", {[ "bar"; "screen"; "group" ]});
      ("window", {[ "group"; "screen"; "layout" ]}) ].

(** The row of the table for the root. *)
Definition spec_root_children : gset string :=
  {[ "bar"; "group"; "layout"; "screen"; "widget"; "window" ]}.

(** ** Nodes that respect the schema

    The constructors take any parent, so an object can be built under a
    parent that does not list its kind.  [schema_valid] holds for a container
    when every object on its parent chain is of a kind its parent lists in
    [children]; for any node it is asked of the containers it hangs from. *)
Fixpoint schema_valid (c : CommandGraphContainer) : bool :=
  match c with
  | CommandGraphRoot => true
  | CommandGraphObject cls _ _parent =>
      bool_decide (object_type cls ∈ Container.children _parent) && schema_valid _parent
  end.

Definition node_schema_valid (n : _CommandGraphNode) : bool :=
  match n with
  | Container c => schema_valid c
  | CommandGraphCall _ _parent => schema_valid _parent
  end.

(** ** Concrete runs *)

Example run_screen_layout :
  navigate_steps (Container CommandGraphRoot) [("screen", Some "1"); ("layout", None)]
  = Return [ Container (CommandGraphObject _ScreenGraphNode (Some "1") CommandGraphRoot);
             Container (CommandGraphObject _LayoutGraphNode None
                          (CommandGraphObject _ScreenGraphNode (Some "1") CommandGraphRoot)) ].
Proof. vm_compute. reflexivity. Qed.

Example run_root_call :
  Container.navigate CommandGraphRoot "status" None
  = Return (CommandGraphCall "status" CommandGraphRoot).
Proof. vm_compute. reflexivity. Qed.

Example run_root_selected_unknown :
  Container.navigate CommandGraphRoot "status" (Some "0")
  = Raise (KeyError "Given node is not an object: status").
Proof. vm_compute. reflexivity. Qed.

Example run_past_call :
  navigate_steps (Container CommandGraphRoot) [("status", None); ("screen", None)]
  = Raise (AttributeError "navigate").
Proof. vm_compute. reflexivity. Qed.

Example path_screen_layout :
  path (Container (CommandGraphObject _LayoutGraphNode None
                     (CommandGraphObject _ScreenGraphNode (Some "1") CommandGraphRoot)))
  = "screen[1].layout".
Proof. reflexivity. Qed.

Example chain_root_call :
  ancestors (CommandGraphCall "status" CommandGraphRoot) = [CommandGraphRoot]
  ∧ container_steps [CommandGraphCall "status" CommandGraphRoot] = 0.
Proof. split; reflexivity. Qed.

Example adjacency_widget : spec_adjacency !! "widget" = Some (list_to_set (class_children _WidgetGraphNode)).
Proof. vm_compute. reflexivity. Qed.

(** ** The schema and the constructor dictionary *)

Section Schema.

(** Membership in a literal list of names, split into its cases. *)
Ltac names H :=
  repeat (apply elem_of_cons in H as [-> | H]);
  [ .. | by apply elem_of_nil in H ].

(** The class whose [object_type] is a given literal name. *)
Ltac pick_class :=
  first [ by exists _BarGraphNode | by exists _GroupGraphNode
        | by exists _LayoutGraphNode | by exists _ScreenGraphNode
        | by exists _WidgetGraphNode | by exists _WindowGraphNode ].

Lemma children_are_kinds (n : CommandGraphContainer) (k : string) :
  k ∈ Container.children n → ∃ cls, object_type cls = k.
Proof.
  intros H. destruct n as [|[] sel p]; simpl in H; names H; pick_class.
Qed.

Lemma map_lookup_object_type (cls : ObjectClass) :
  _CommandGraphMap !! object_type cls = Some cls.
Proof. destruct cls; vm_compute; reflexivity. Qed.

Lemma map_lookup_inv (k : string) (cls : ObjectClass) :
  _CommandGraphMap !! k = Some cls → object_type cls = k.
Proof.
  unfold _CommandGraphMap. intros H.
  repeat (apply lookup_insert_Some in H as [[<- <-] | [_ H]]; [reflexivity|]).
  by rewrite lookup_empty in H.
Qed.

Lemma map_lookup_child (n : CommandGraphContainer) (k : string) :
  k ∈ Container.children n →
  ∃ cls, _CommandGraphMap !! k = Some cls ∧ object_type cls = k.
Proof.
  intros [cls <-]%children_are_kinds. exists cls.
  split; [apply map_lookup_object_type | reflexivity].
Qed.

Lemma navigate_child (n : CommandGraphContainer) (k : string) (s : option string) :
  k ∈ Container.children n →
  ∃ cls, object_type cls = k ∧
         Container.navigate n k s = Return (Container (CommandGraphObject cls s n)).
Proof.
  intros H. destruct (map_lookup_child n k H) as (cls & Hl & Hk).
  exists cls. split; [done|].
  unfold Container.navigate. by rewrite decide_True, Hl.
Qed.

Lemma navigate_selected_unknown (n : CommandGraphContainer) (k s : string) :
  k ∉ Container.children n →
  Container.navigate n k (Some s) = Raise (NotAnObject k).
Proof. intros H. unfold Container.navigate. by rewrite decide_False. Qed.

Lemma navigate_call (n : CommandGraphContainer) (k : string) :
  k ∉ Container.children n →
  Container.navigate n k None = Return (CommandGraphCall k n).
Proof. intros H. unfold Container.navigate. by rewrite decide_False. Qed.

End Schema.

(** ** The formatter *)

Section Formatting.

Lemma str_join_concat (sep : string) (l : list string) :
  str_join sep l = String.concat sep l.
Proof.
  induction l as [|x [|y l] IH]; [done..|].
  change (x +:+ sep +:+ str_join sep (y :: l) = x +:+ sep +:+ String.concat sep (y :: l)).
  by rewrite IH.
Qed.

(** The accumulating loop of [_format_selectors], started from any list. *)
Lemma format_loop (acc : list string) (steps : list SelectorType) :
  fold_left
    (fun (path_elements : list string) (step : SelectorType) =>
       let '(name, selector) := step in
       match selector with
       | Some sel => (path_elements ++ [name +:+ "[" +:+ sel +:+ "]"])%list
       | None => (path_elements ++ [name])%list
       end)
    steps acc
  = (acc ++ map spec_render_step steps)%list.
Proof.
  revert acc. induction steps as [|[k [sel|]] steps IH]; intros acc; simpl.
  - by rewrite app_nil_r.
  - by rewrite IH, <- app_assoc.
  - by rewrite IH, <- app_assoc.
Qed.

Lemma format_selectors_join (steps : list SelectorType) :
  _format_selectors steps = str_join "." (map spec_render_step steps).
Proof. unfold _format_selectors. by rewrite format_loop. Qed.

Lemma append_length (a b : string) :
  String.length (a +:+ b) = String.length a + String.length b.
Proof. induction a as [|ch a IH]; simpl; [done | by rewrite IH]. Qed.

Lemma append_empty_inv (a b : string) : a +:+ b = "" → a = "" ∧ b = "".
Proof. destruct a; simpl; [done | discriminate]. Qed.

(** A dot-joined string is empty only when every piece is. *)
Lemma str_join_empty (l : list string) :
  str_join "." l = "" → ∀ x, x ∈ l → x = "".
Proof.
  destruct l as [|x [|y l]]; simpl; intros H z Hz.
  - by apply elem_of_nil in Hz.
  - apply list_elem_of_singleton in Hz. by subst.
  - apply append_empty_inv in H as [_ H]. discriminate.
Qed.

Lemma render_object_step (cls : ObjectClass) (sel : option string) :
  spec_render_step (object_type cls, sel) ≠ "".
Proof. destruct cls, sel; discriminate. Qed.

Lemma container_path_empty (c : CommandGraphContainer) :
  Container.path c = "" ↔ c = CommandGraphRoot.
Proof.
  split; [|by intros ->].
  destruct c as [|cls sel p]; [done|]. unfold Container.path. simpl.
  rewrite format_selectors_join, map_app. intros H.
  destruct (render_object_step cls sel).
  apply (str_join_empty _ H). simpl. apply elem_of_app. right. by left.
Qed.

End Formatting.

(** ** Parent chains *)

Section Chains.

Lemma ancestors_unfold (n : _CommandGraphNode) :
  ancestors n =
  match parent n with
  | None => []
  | Some p => p :: ancestors (Container p)
  end.
Proof. by destruct n as [[|cls sel p]|nm p]. Qed.

Lemma ancestors_last (q : CommandGraphContainer) :
  last (q :: Container.ancestors q) = Some CommandGraphRoot.
Proof.
  induction q as [|cls sel p IH]; [done|].
  simpl Container.ancestors. by rewrite last_cons_cons.
Qed.

Lemma ancestors_length_selectors (c : CommandGraphContainer) :
  length (Container.ancestors c) = length (Container.selectors c).
Proof.
  induction c as [|cls sel p IH]; [done|].
  simpl. rewrite length_app. simpl. lia.
Qed.

(** Every ancestor has a strictly shorter parent chain. *)
Lemma ancestors_shorter (c a : CommandGraphContainer) :
  a ∈ Container.ancestors c →
  length (Container.ancestors a) < length (Container.ancestors c).
Proof.
  induction c as [|cls sel p IH]; simpl; intros H.
  - by apply elem_of_nil in H.
  - apply elem_of_cons in H as [-> | H]; [lia|]. specialize (IH H). lia.
Qed.

Lemma not_own_ancestor (n : _CommandGraphNode) :
  ∀ a, a ∈ ancestors n → Container a ≠ n.
Proof.
  intros a H <-. simpl in H. apply ancestors_shorter in H. lia.
Qed.

Lemma navigate_parent (c : CommandGraphContainer) (k : string)
    (s : option string) (n : _CommandGraphNode) :
  Container.navigate c k s = Return n → parent n = Some c.
Proof.
  unfold Container.navigate. intros H.
  repeat case_match; simplify_eq; done.
Qed.

Lemma navigate_ancestors (c : CommandGraphContainer) (k : string)
    (s : option string) (n : _CommandGraphNode) :
  Container.navigate c k s = Return n →
  ancestors n = c :: Container.ancestors c.
Proof.
  intros H. rewrite ancestors_unfold. by rewrite (navigate_parent _ _ _ _ H).
Qed.

Lemma navigate_selectors (c : CommandGraphContainer) (k : string)
    (s : option string) (n : _CommandGraphNode) :
  Container.navigate c k s = Return n →
  length (selectors n) =
  length (Container.selectors c) + (if is_container n then 1 else 0).
Proof.
  unfold Container.navigate. intros H.
  repeat case_match; simplify_eq; simpl; rewrite ?length_app; simpl; lia.
Qed.

End Chains.

(** ** Runs of several steps *)

Section Runs.

Lemma final_node_cons (start n : _CommandGraphNode) (l : list _CommandGraphNode) :
  final_node start (n :: l) = final_node n l.
Proof.
  unfold final_node. rewrite last_cons. by destruct (last l).
Qed.

Lemma container_steps_cons (n : _CommandGraphNode) (l : list _CommandGraphNode) :
  container_steps (n :: l) = (if is_container n then 1 else 0) + container_steps l.
Proof.
  unfold container_steps. rewrite filter_cons.
  destruct (is_container n); by case_decide.
Qed.

Lemma navigate_steps_cons_inv (start : _CommandGraphNode) (k : string)
    (s : option string) (rest : list SelectorType) (produced : list _CommandGraphNode) :
  navigate_steps start ((k, s) :: rest) = Return produced →
  ∃ c n tail,
    start = Container c ∧ Container.navigate c k s = Return n ∧
    navigate_steps n rest = Return tail ∧ produced = n :: tail.
Proof.
  simpl. destruct start as [c|nm p]; [|by intros [=]].
  destruct (Container.navigate c k s) as [n|e] eqn:Hn; [|by intros [=]].
  destruct (navigate_steps n rest) as [tail|e] eqn:Ht; [|by intros [=]].
  intros [= <-]. by exists c, n, tail.
Qed.

(** What a successful run adds to the parent chain and to the selector
    chain of its starting node. *)
Lemma navigate_steps_measure (steps : list SelectorType) :
  ∀ (start : _CommandGraphNode) (produced : list _CommandGraphNode),
    navigate_steps start steps = Return produced →
    length produced = length steps ∧
    length (ancestors (final_node start produced)) =
      length (ancestors start) + length steps ∧
    length (selectors (final_node start produced)) =
      length (selectors start) + container_steps produced.
Proof.
  induction steps as [|[k s] rest IH]; intros start produced H.
  - injection H as <-. unfold final_node, container_steps. simpl. lia.
  - apply navigate_steps_cons_inv in H as (c & n & tail & -> & Hn & Ht & ->).
    destruct (IH _ _ Ht) as (IH1 & IH2 & IH3).
    rewrite final_node_cons, container_steps_cons, IH2, IH3.
    rewrite (navigate_ancestors _ _ _ _ Hn), (navigate_selectors _ _ _ _ Hn).
    simpl. lia.
Qed.

Lemma chain_ends_at_root (n : _CommandGraphNode) :
  n = Container CommandGraphRoot ∨ last (ancestors n) = Some CommandGraphRoot.
Proof.
  destruct n as [[|cls sel p]|nm p]; [by left|right..]; apply ancestors_last.
Qed.

Lemma depth_selectors (n : _CommandGraphNode) :
  length (ancestors n) =
  length (selectors n) + (if is_container n then 0 else 1).
Proof.
  destruct n as [c|nm p]; simpl; rewrite ancestors_length_selectors; lia.
Qed.

End Runs.

(** * The claims *)

(** C1. For every container node [n], every name [c] in [n.children] and
    every selector [s], [navigate(n, c, s)] returns a container object whose
    [object_type] is [c], whose selector is [s] and whose parent is [n]; the
    object is a new node: it is neither [n] nor one of the ancestors of [n]. *)
Theorem C1_navigate_recognized (n : CommandGraphContainer) (c : string)
    (s : option string) :
  c ∈ Container.children n →
  ∃ obj : CommandGraphContainer,
    Container.navigate n c s = Return (Container obj) ∧
    node_object_type (Container obj) = Some c ∧
    Container.selector obj = s ∧
    parent (Container obj) = Some n ∧
    obj ≠ n ∧ obj ∉ Container.ancestors n.
Proof.
  intros H. destruct (navigate_child n c s H) as (cls & Hk & Hn).
  exists (CommandGraphObject cls s n). repeat split; try done.
  - simpl. by rewrite Hk.
  - intros E. apply (not_own_ancestor (Container (CommandGraphObject cls s n)) n).
    + simpl. by left.
    + by rewrite E.
  - intros Hin. apply ancestors_shorter in Hin. simpl in Hin. lia.
Qed.

Lemma C1_navigate_recognized_witness :
  ∃ obj : CommandGraphContainer,
    Container.navigate CommandGraphRoot "screen" (Some "1") = Return (Container obj) ∧
    node_object_type (Container obj) = Some "screen" ∧
    Container.selector obj = Some "1" ∧
    parent (Container obj) = Some CommandGraphRoot ∧
    obj ≠ CommandGraphRoot ∧ obj ∉ Container.ancestors CommandGraphRoot.
Proof.
  apply (C1_navigate_recognized CommandGraphRoot "screen" (Some "1")).
  simpl. apply list_elem_of_In. simpl. tauto.
Defined.

(** C2. For every container node [n] and every name [c] not in
    [n.children]: with any selector string [navigate] raises the
    not-an-object error, and without a selector it returns the call node
    with name [c] and parent [n].  For every name and selector, [navigate]
    raises if and only if the name is unrecognized and a selector is given. *)
Theorem C2_navigate_unrecognized (n : CommandGraphContainer) (c : string) :
  (c ∉ Container.children n →
     (∀ s : string, Container.navigate n c (Some s) = Raise (NotAnObject c)) ∧
     (∃ call, Container.navigate n c None = Return call ∧
              is_container call = false ∧
              name call = Some c ∧ parent call = Some n)) ∧
  (∀ sel : option string,
     raises (Container.navigate n c sel) ↔
     (c ∉ Container.children n) ∧ is_Some sel).
Proof.
  split.
  - intros H. split.
    + intros s. by apply navigate_selected_unknown.
    + exists (CommandGraphCall c n). split; [by apply navigate_call | done].
  - intros sel. destruct (decide (c ∈ Container.children n)) as [Hin|Hout].
    + destruct (navigate_child n c sel Hin) as (cls & _ & ->). simpl.
      split; [done | by intros [? _]].
    + destruct sel as [s|].
      * rewrite navigate_selected_unknown by done. simpl. split; [eauto | done].
      * rewrite navigate_call by done. simpl.
        split; [done | by intros [_ [? ?]]].
Qed.

Lemma C2_navigate_unrecognized_witness :
  (∀ s : string,
     Container.navigate CommandGraphRoot "status" (Some s) = Raise (NotAnObject "status")) ∧
  (∃ call, Container.navigate CommandGraphRoot "status" None = Return call ∧
           is_container call = false ∧
           name call = Some "status" ∧ parent call = Some CommandGraphRoot).
Proof.
  apply (proj1 (C2_navigate_unrecognized CommandGraphRoot "status")).
  intros H. apply list_elem_of_In in H. simpl in H.
  repeat destruct H as [H|H]; discriminate || contradiction.
Defined.

(** C3. [Root.children] is exactly bar, group, layout, screen, widget,
    window, and these are the six kinds: the [object_type]s of the six
    classes.  For every kind [k] and every selector [s], present or absent,
    [navigate(Root, k, s)] succeeds iff [k] is in [Root.children].  For an
    arbitrary name the same equivalence holds whenever a selector is given,
    and [navigate] returns a container object iff the name is in
    [Root.children]. *)
Theorem C3_root_children_navigate :
  Container.children CommandGraphRoot
    = ["bar"; "group"; "layout"; "screen"; "widget"; "window"] ∧
  (∀ k : string, k ∈ Container.children CommandGraphRoot ↔ k ∈ spec_root_children) ∧
  (∀ k : string,
     k ∈ Container.children CommandGraphRoot ↔ ∃ cls : ObjectClass, object_type cls = k) ∧
  (∀ (cls : ObjectClass) (s : option string),
     succeeds (Container.navigate CommandGraphRoot (object_type cls) s) ↔
     object_type cls ∈ Container.children CommandGraphRoot) ∧
  (∀ (k : string) (s : string),
     succeeds (Container.navigate CommandGraphRoot k (Some s)) ↔
     k ∈ Container.children CommandGraphRoot) ∧
  (∀ (k : string) (s : option string),
     (∃ obj, Container.navigate CommandGraphRoot k s = Return (Container obj)) ↔
     k ∈ Container.children CommandGraphRoot).
Proof.
  assert (Hsucc : ∀ (k : string) (s : option string),
     succeeds (Container.navigate CommandGraphRoot k s) ↔
     k ∈ Container.children CommandGraphRoot ∨ s = None).
  { intros k s. destruct (decide (k ∈ Container.children CommandGraphRoot)) as [Hin|Hout].
    - destruct (navigate_child _ k s Hin) as (cls & _ & ->). simpl. tauto.
    - destruct s as [s|].
      + rewrite navigate_selected_unknown by done. simpl.
        split; [done | by intros [?|?]].
      + rewrite navigate_call by done. simpl. tauto. }
  assert (Hkind : ∀ cls : ObjectClass,
     object_type cls ∈ Container.children CommandGraphRoot).
  { intros cls. destruct cls; simpl; rewrite !elem_of_cons; tauto. }
  split; [reflexivity|]. split; [|split; [|split; [|split]]].
  - intros k. unfold spec_root_children. simpl.
    rewrite !elem_of_cons, elem_of_nil, !elem_of_union, !elem_of_singleton. tauto.
  - intros k. split; [apply children_are_kinds | intros [cls <-]; apply Hkind].
  - intros cls s. rewrite Hsucc. split; [intros _; apply Hkind | by left].
  - intros k s. rewrite Hsucc. split; [by intros [?|?] | by left].
  - intros k s. split.
    + intros [obj Hobj]. destruct (decide (k ∈ Container.children CommandGraphRoot)) as [|Hout]; [done|].
      destruct s as [s|].
      * by rewrite navigate_selected_unknown in Hobj.
      * by rewrite navigate_call in Hobj.
    + intros Hin. destruct (navigate_child _ k s Hin) as (cls & _ & ->). eauto.
Qed.

(** C4. The [children] of every object equal the row of the adjacency table
    for its kind (and the root's equal the root row); they depend on the
    class alone, not on the selector or the parent.  The table is not
    symmetric.  [window] is not a child of a widget node, so navigating to it
    without a selector yields a call; [group] is a child of a window node, so
    navigating to it yields a container object; [widget] is not a child of a
    window node. *)
Theorem C4_adjacency_table :
  (∀ (cls : ObjectClass) (sel : option string) (p : CommandGraphContainer),
     spec_adjacency !! object_type cls
     = Some (list_to_set (Container.children (CommandGraphObject cls sel p)))) ∧
  list_to_set (Container.children CommandGraphRoot) = spec_root_children ∧
  (∀ (cls : ObjectClass) (sel sel' : option string) (p p' : CommandGraphContainer),
     Container.children (CommandGraphObject cls sel p)
     = Container.children (CommandGraphObject cls sel' p')) ∧
  ¬ (∀ a b : ObjectClass,
       object_type b ∈ class_children a → object_type a ∈ class_children b) ∧
  (∀ (sel : option string) (p : CommandGraphContainer),
     let widget_node := CommandGraphObject _WidgetGraphNode sel p in
     ("window" ∉ Container.children widget_node) ∧
     Container.navigate widget_node "window" None
     = Return (CommandGraphCall "window" widget_node)) ∧
  (∀ (sel : option string) (p : CommandGraphContainer),
     let window_node := CommandGraphObject _WindowGraphNode sel p in
     "group" ∈ Container.children window_node ∧
     ("widget" ∉ Container.children window_node) ∧
     Container.navigate window_node "group" None
     = Return (Container (CommandGraphObject _GroupGraphNode None window_node))).
Proof.
  split; [|split; [|split; [|split; [|split]]]].
  - intros cls sel p. destruct cls; vm_compute; reflexivity.
  - vm_compute. reflexivity.
  - reflexivity.
  - intros H. specialize (H _WidgetGraphNode _BarGraphNode).
    assert (Hin : "widget" ∈ class_children _BarGraphNode).
    { apply H. simpl. by left. }
    simpl in Hin. apply list_elem_of_singleton in Hin. discriminate.
  - intros sel p widget_node. split; [|reflexivity].
    simpl. rewrite !elem_of_cons, elem_of_nil.
    intros [?|[?|[?|?]]]; discriminate || contradiction.
  - intros sel p window_node. split; [|split; [|reflexivity]].
    + simpl. rewrite !elem_of_cons. tauto.
    + simpl. rewrite !elem_of_cons, elem_of_nil.
      intros [?|[?|[?|?]]]; discriminate || contradiction.
Qed.

(** C5. The selector chain obeys the recursion: the root's is empty; a
    container object's is its parent's followed by the pair of its own
    [object_type] and its own selector; a call's is its parent's. *)
Theorem C5_selectors_recursion :
  selectors (Container CommandGraphRoot) = [] ∧
  (∀ (obj p : CommandGraphContainer),
     parent (Container obj) = Some p →
     ∃ kind, node_object_type (Container obj) = Some kind ∧
             selectors (Container obj)
             = (selectors (Container p) ++ [(kind, Container.selector obj)])%list) ∧
  (∀ (call : _CommandGraphNode) (nm : string),
     name call = Some nm →
     ∃ p, parent call = Some p ∧ selectors call = selectors (Container p)).
Proof.
  split; [reflexivity|]. split.
  - intros [|cls sel q] p H; [discriminate|]. injection H as <-.
    by exists (object_type cls).
  - intros [c|nm' p] nm H; [discriminate|]. by exists p.
Qed.

Lemma C5_selectors_recursion_witness :
  (∃ kind,
     node_object_type (Container (CommandGraphObject _LayoutGraphNode None
        (CommandGraphObject _ScreenGraphNode (Some "1") CommandGraphRoot))) = Some kind ∧
     selectors (Container (CommandGraphObject _LayoutGraphNode None
        (CommandGraphObject _ScreenGraphNode (Some "1") CommandGraphRoot)))
     = (selectors (Container (CommandGraphObject _ScreenGraphNode (Some "1") CommandGraphRoot))
        ++ [(kind, None)])%list) ∧
  (∃ p, parent (CommandGraphCall "info"
                  (CommandGraphObject _GroupGraphNode (Some "work") CommandGraphRoot)) = Some p ∧
        selectors (CommandGraphCall "info"
                  (CommandGraphObject _GroupGraphNode (Some "work") CommandGraphRoot))
        = selectors (Container p)).
Proof.
  split.
  - apply (proj1 (proj2 C5_selectors_recursion)
             (CommandGraphObject _LayoutGraphNode None
                (CommandGraphObject _ScreenGraphNode (Some "1") CommandGraphRoot))
             (CommandGraphObject _ScreenGraphNode (Some "1") CommandGraphRoot)).
    reflexivity.
  - apply (proj2 (proj2 C5_selectors_recursion)
             (CommandGraphCall "info"
                (CommandGraphObject _GroupGraphNode (Some "work") CommandGraphRoot))
             "info").
    reflexivity.
Defined.

(** C6. [_format_selectors] is [format_path]: each step rendered as
    [kind[selector]] or [kind], the pieces joined with a dot.  A call's path
    is its parent's path, a dot and the name when the parent's path is not
    empty, and the name alone when it is empty, which is the case exactly
    when the parent is the root. *)
Theorem C6_format_path :
  (∀ steps : list SelectorType, _format_selectors steps = spec_format_path steps) ∧
  (∀ (nm : string) (p : CommandGraphContainer),
     (path (Container p) ≠ "" →
        path (CommandGraphCall nm p) = path (Container p) +:+ "." +:+ nm) ∧
     (path (Container p) = "" → path (CommandGraphCall nm p) = nm) ∧
     (path (Container p) = "" ↔ p = CommandGraphRoot)) ∧
  _format_selectors [("screen", Some "1"); ("layout", None)] = "screen[1].layout" ∧
  (∃ call, Container.navigate CommandGraphRoot "status" None = Return call ∧
           path call = "status").
Proof.
  split; [|split; [|split]].
  - intros steps. unfold spec_format_path.
    by rewrite format_selectors_join, str_join_concat.
  - intros nm p. split; [|split].
    + simpl. destruct (Container.path p); [by intros []|done].
    + simpl. by intros ->.
    + apply container_path_empty.
  - reflexivity.
  - by exists (CommandGraphCall "status" CommandGraphRoot).
Qed.

Lemma C6_format_path_witness :
  path (CommandGraphCall "info"
          (CommandGraphObject _GroupGraphNode (Some "work") CommandGraphRoot))
  = "group[work].info" ∧
  path (CommandGraphCall "status" CommandGraphRoot) = "status".
Proof.
  split.
  - apply (proj1 (proj1 (proj2 C6_format_path) "info"
             (CommandGraphObject _GroupGraphNode (Some "work") CommandGraphRoot))).
    discriminate.
  - apply (proj1 (proj2 (proj1 (proj2 C6_format_path) "status" CommandGraphRoot))).
    reflexivity.
Defined.

(** C7. For every container node, [path] is [_format_selectors] of the
    node's own [selectors].  Navigating from the root to screen 1 and then to
    its layout gives the path [screen[1].layout]; navigating to the group
    work and then to the unrecognized, unselected name info gives a call
    whose path is [group[work].info]. *)
Theorem C7_path_of_selectors :
  (∀ c : CommandGraphContainer,
     path (Container c) = _format_selectors (selectors (Container c)) ∧
     path (Container c) = spec_format_path (selectors (Container c))) ∧
  (∃ produced,
     navigate_steps (Container CommandGraphRoot) [("screen", Some "1"); ("layout", None)]
     = Return produced ∧
     is_container (final_node (Container CommandGraphRoot) produced) = true ∧
     path (final_node (Container CommandGraphRoot) produced) = "screen[1].layout") ∧
  (∃ produced,
     navigate_steps (Container CommandGraphRoot) [("group", Some "work"); ("info", None)]
     = Return produced ∧
     is_container (final_node (Container CommandGraphRoot) produced) = false ∧
     name (final_node (Container CommandGraphRoot) produced) = Some "info" ∧
     path (final_node (Container CommandGraphRoot) produced) = "group[work].info").
Proof.
  split; [|split].
  - intros c. split; [reflexivity|].
    unfold spec_format_path. simpl. unfold Container.path.
    by rewrite format_selectors_join, str_join_concat.
  - eexists. split; [vm_compute; reflexivity|]. by vm_compute.
  - eexists. split; [vm_compute; reflexivity|]. by vm_compute.
Qed.

(** C8, as stated: after any sequence of steps from the root the parent
    chain of the resulting node is as long as the number of steps that
    produced a container.  This fails when the sequence ends in a call: the
    call has a parent link of its own. *)
Lemma C8_chain_length_counterexample :
  ¬ (∀ (steps : list SelectorType) (produced : list _CommandGraphNode),
       navigate_steps (Container CommandGraphRoot) steps = Return produced →
       length (ancestors (final_node (Container CommandGraphRoot) produced))
       = container_steps produced).
Proof.
  intros H.
  specialize (H [("status", None)] [CommandGraphCall "status" CommandGraphRoot] eq_refl).
  vm_compute in H. discriminate.
Qed.

(** C8, amended.  For any sequence of steps from the root that [navigate]
    carries out, the parent chain of the resulting node is finite, ends at
    the root (unless the node is the root) and does not contain the node;
    its length is the number of steps taken: the number of steps that
    produced a container when the resulting node is a container, one more
    when it is a call.  Only the root has no parent. *)
Theorem C8_parent_chain (steps : list SelectorType)
    (produced : list _CommandGraphNode) :
  navigate_steps (Container CommandGraphRoot) steps = Return produced →
  let node := final_node (Container CommandGraphRoot) produced in
  (node = Container CommandGraphRoot ∨ last (ancestors node) = Some CommandGraphRoot) ∧
  (∀ a, a ∈ ancestors node → Container a ≠ node) ∧
  length (ancestors node) = length steps ∧
  length (ancestors node)
    = container_steps produced + (if is_container node then 0 else 1) ∧
  (∀ n : _CommandGraphNode, parent n = None ↔ n = Container CommandGraphRoot) ∧
  (∀ n : _CommandGraphNode,
     ancestors n = match parent n with
                   | None => []
                   | Some p => p :: ancestors (Container p)
                   end).
Proof.
  intros H node.
  destruct (navigate_steps_measure _ _ _ H) as (_ & Hanc & Hsel).
  split; [apply chain_ends_at_root|]. split; [apply not_own_ancestor|].
  split; [exact Hanc|]. split.
  - rewrite depth_selectors. fold node in Hsel. rewrite Hsel. simpl. lia.
  - split; [|apply ancestors_unfold].
    intros [[|cls sel p]|nm p]; simpl; split; done.
Qed.

Lemma C8_parent_chain_witness :
  let node := final_node (Container CommandGraphRoot)
                [ Container (CommandGraphObject _GroupGraphNode (Some "work") CommandGraphRoot);
                  CommandGraphCall "info"
                    (CommandGraphObject _GroupGraphNode (Some "work") CommandGraphRoot) ] in
  last (ancestors node) = Some CommandGraphRoot ∧ length (ancestors node) = 2.
Proof.
  intros node.
  pose proof (C8_parent_chain [("group", Some "work"); ("info", None)]
                [ Container (CommandGraphObject _GroupGraphNode (Some "work") CommandGraphRoot);
                  CommandGraphCall "info"
                    (CommandGraphObject _GroupGraphNode (Some "work") CommandGraphRoot) ]
                eq_refl) as (Hlast & _ & Hlen & _).
  fold node in Hlast, Hlen. split; [|exact Hlen].
  destruct Hlast as [Hroot|Hlast]; [discriminate Hroot | exact Hlast].
Defined.

(** C9. The dictionary subscript in the recognized branch of [navigate]
    never fails: every name in any node's [children] is a key of
    [_CommandGraphMap], whose keys are exactly the six kind names, and the
    class stored under a key reports that key as its [object_type]; so the
    node built for a recognized name [k] has [object_type] [k], and
    [navigate] never raises the [KeyError] of a missing key. *)
Theorem C9_dispatch_total :
  (∀ (n : CommandGraphContainer) (k : string),
     k ∈ Container.children n → is_Some (_CommandGraphMap !! k)) ∧
  dom _CommandGraphMap
    = ({[ "bar"; "group"; "layout"; "screen"; "widget"; "window" ]} : gset string) ∧
  (∀ (k : string) (cls : ObjectClass),
     _CommandGraphMap !! k = Some cls → object_type cls = k) ∧
  (∀ (n : CommandGraphContainer) (k : string) (s : option string),
     k ∈ Container.children n →
     ∃ node, Container.navigate n k s = Return node ∧
             node_object_type node = Some k) ∧
  (∀ (n : CommandGraphContainer) (k : string) (s : option string),
     Container.navigate n k s ≠ Raise (KeyError k)).
Proof.
  split; [|split; [|split; [|split]]].
  - intros n k H. destruct (map_lookup_child n k H) as (cls & -> & _). eauto.
  - vm_compute. reflexivity.
  - apply map_lookup_inv.
  - intros n k s H. destruct (navigate_child n k s H) as (cls & Hk & ->).
    eexists. split; [reflexivity|]. simpl. by rewrite Hk.
  - intros n k s. destruct (decide (k ∈ Container.children n)) as [Hin|Hout].
    + by destruct (navigate_child n k s Hin) as (cls & _ & ->).
    + destruct s as [s|].
      * rewrite navigate_selected_unknown by done. unfold NotAnObject.
        intros [= E]. apply (f_equal String.length) in E.
        rewrite append_length in E. simpl in E. lia.
      * by rewrite navigate_call.
Qed.

Lemma C9_dispatch_total_witness :
  is_Some (_CommandGraphMap !! "bar") ∧
  object_type _ScreenGraphNode = "screen" ∧
  ∃ node,
    Container.navigate (CommandGraphObject _ScreenGraphNode None CommandGraphRoot)
      "bar" (Some "top") = Return node ∧
    node_object_type node = Some "bar".
Proof.
  split; [|split].
  - apply (proj1 C9_dispatch_total
             (CommandGraphObject _ScreenGraphNode None CommandGraphRoot) "bar").
    simpl. apply list_elem_of_In. simpl. tauto.
  - apply (proj1 (proj2 (proj2 C9_dispatch_total)) "screen" _ScreenGraphNode).
    vm_compute. reflexivity.
  - apply (proj1 (proj2 (proj2 (proj2 C9_dispatch_total)))
             (CommandGraphObject _ScreenGraphNode None CommandGraphRoot) "bar" (Some "top")).
    simpl. apply list_elem_of_In. simpl. tauto.
Defined.

(** C10. [path] does not identify a node: names and selectors are rendered
    verbatim, and the call reached from the root by the name [screen[1]] and
    the screen object selected by 1 are distinct nodes with the same path
    [screen[1]].  Hence [path] is not injective, even on the nodes that
    navigation from the root produces. *)
Theorem C10_path_not_injective :
  (∃ call obj : _CommandGraphNode,
     Container.navigate CommandGraphRoot "screen[1]" None = Return call ∧
     Container.navigate CommandGraphRoot "screen" (Some "1") = Return obj ∧
     is_container call = false ∧ is_container obj = true ∧
     call ≠ obj ∧
     path call = "screen[1]" ∧ path obj = "screen[1]") ∧
  ¬ (∀ n1 n2 : _CommandGraphNode, path n1 = path n2 → n1 = n2).
Proof.
  split.
  - exists (CommandGraphCall "screen[1]" CommandGraphRoot),
           (Container (CommandGraphObject _ScreenGraphNode (Some "1") CommandGraphRoot)).
    repeat split; try (vm_compute; reflexivity). discriminate.
  - intros H.
    specialize (H (CommandGraphCall "screen[1]" CommandGraphRoot)
                  (Container (CommandGraphObject _ScreenGraphNode (Some "1") CommandGraphRoot))
                  eq_refl).
    discriminate.
Qed.

(** * Further properties of the module *)

(** ** Joining and formatting *)

Section FormattingMore.

Lemma append_assoc (a b c : string) : (a +:+ b) +:+ c = a +:+ (b +:+ c).
Proof.
  induction a as [|ch a IH]; [done|].
  change (String ch ((a +:+ b) +:+ c) = String ch (a +:+ (b +:+ c))).
  by rewrite IH.
Qed.

Lemma append_nil_r (a : string) : a +:+ "" = a.
Proof.
  induction a as [|ch a IH]; [done|].
  change (String ch (a +:+ "") = String ch a). by rewrite IH.
Qed.

Lemma str_join_app (l1 l2 : list string) :
  l1 ≠ [] → l2 ≠ [] →
  str_join "." (l1 ++ l2) = str_join "." l1 +:+ "." +:+ str_join "." l2.
Proof.
  intros H1 H2. induction l1 as [|x [|y l1] IH]; [done| |].
  - destruct l2 as [|z l2]; done.
  - change (x +:+ "." +:+ str_join "." ((y :: l1) ++ l2)
            = (x +:+ "." +:+ str_join "." (y :: l1)) +:+ "." +:+ str_join "." l2).
    rewrite IH by done. by rewrite !append_assoc.
Qed.

(** The path of a container extended by one step. *)
Lemma format_selectors_snoc (c : CommandGraphContainer) (step : SelectorType) :
  _format_selectors (Container.selectors c ++ [step]) =
  match Container.path c with
  | EmptyString => spec_render_step step
  | String _ _ => Container.path c +:+ "." +:+ spec_render_step step
  end.
Proof.
  destruct (Container.path c) as [|ch rest] eqn:Hp.
  - apply container_path_empty in Hp as ->. simpl.
    by rewrite format_selectors_join.
  - rewrite <- Hp. rewrite format_selectors_join, map_app.
    rewrite str_join_app.
    + unfold Container.path. by rewrite format_selectors_join.
    + destruct c as [|cls sel p]; [done|]. simpl. rewrite map_app.
      intros E. by apply app_eq_nil in E as [_ ?].
    + done.
Qed.

End FormattingMore.

(** X1. The empty selector list formats to the empty string.  Formatting a
    concatenation of two non-empty lists gives the two formatted parts joined
    by a dot; when either list is empty no dot is added and the result is
    the two formatted parts put side by side. *)
Theorem X1_format_selectors_app :
  _format_selectors [] = "" ∧
  (∀ l1 l2 : list SelectorType,
     l1 ≠ [] → l2 ≠ [] →
     _format_selectors (l1 ++ l2)
     = _format_selectors l1 +:+ "." +:+ _format_selectors l2) ∧
  (∀ l1 l2 : list SelectorType,
     l1 = [] ∨ l2 = [] →
     _format_selectors (l1 ++ l2) = _format_selectors l1 +:+ _format_selectors l2).
Proof.
  split; [reflexivity|]. split.
  - intros l1 l2 H1 H2. rewrite !format_selectors_join, map_app.
    apply str_join_app; by destruct l1, l2.
  - intros l1 l2 [-> | ->]; [reflexivity|].
    by rewrite app_nil_r, append_nil_r.
Qed.

Lemma X1_format_selectors_app_witness :
  _format_selectors ([("screen", Some "1")] ++ [("layout", None); ("group", Some "a")])
  = "screen[1]" +:+ "." +:+ "layout.group[a]"
  ∧ _format_selectors ([("screen", Some "1")] ++ []) = "screen[1]" +:+ "".
Proof.
  split.
  - apply (proj1 (proj2 X1_format_selectors_app)
             [("screen", Some "1")] [("layout", None); ("group", Some "a")]);
      discriminate.
  - apply (proj2 (proj2 X1_format_selectors_app) [("screen", Some "1")] []).
    by right.
Defined.

(** ** One step of navigation *)

Section Steps.

(** The two ways in which [navigate] returns. *)
Lemma navigate_return_inv (c : CommandGraphContainer) (k : string)
    (s : option string) (n : _CommandGraphNode) :
  Container.navigate c k s = Return n →
  (∃ cls, k ∈ Container.children c ∧ object_type cls = k ∧
          n = Container (CommandGraphObject cls s c)) ∨
  ((k ∉ Container.children c) ∧ s = None ∧ n = CommandGraphCall k c).
Proof.
  intros H. destruct (decide (k ∈ Container.children c)) as [Hin|Hout].
  - left. destruct (navigate_child c k s Hin) as (cls & Hk & Hn).
    rewrite Hn in H. injection H as <-. by exists cls.
  - right. destruct s as [s|].
    + by rewrite navigate_selected_unknown in H.
    + rewrite navigate_call in H by done. by injection H as <-.
Qed.

Lemma object_type_inj (a b : ObjectClass) : object_type a = object_type b → a = b.
Proof. destruct a, b; simpl; intros H; done. Qed.

End Steps.

(** X2. The path after one step of [navigate] is the path before it and the
    rendered step [(name, selector)], joined by a dot when the path before is
    not empty.  This holds for both kinds of result, a container object and a
    call. *)
Theorem X2_navigate_path (c : CommandGraphContainer) (k : string)
    (s : option string) (n : _CommandGraphNode) :
  Container.navigate c k s = Return n →
  path n =
  match path (Container c) with
  | EmptyString => spec_render_step (k, s)
  | String _ _ => path (Container c) +:+ "." +:+ spec_render_step (k, s)
  end.
Proof.
  intros [(cls & _ & Hk & ->) | (_ & -> & ->)]%navigate_return_inv.
  - change (path (Container (CommandGraphObject cls s c)))
      with (_format_selectors (Container.selectors c ++ [(object_type cls, s)])).
    rewrite format_selectors_snoc. by rewrite Hk.
  - reflexivity.
Qed.

Lemma X2_navigate_path_witness :
  path (Container (CommandGraphObject _BarGraphNode (Some "top")
                     (CommandGraphObject _ScreenGraphNode (Some "0") CommandGraphRoot)))
  = "screen[0].bar[top]".
Proof.
  apply (X2_navigate_path (CommandGraphObject _ScreenGraphNode (Some "0") CommandGraphRoot)
           "bar" (Some "top")).
  vm_compute. reflexivity.
Defined.

(** X3. [navigate] is injective on its results: a node is returned for one
    parent, one name and one selector only. *)
Theorem X3_navigate_injective (c c' : CommandGraphContainer) (k k' : string)
    (s s' : option string) (n : _CommandGraphNode) :
  Container.navigate c k s = Return n →
  Container.navigate c' k' s' = Return n →
  c = c' ∧ k = k' ∧ s = s'.
Proof.
  intros [(cls & _ & Hk & ->) | (_ & -> & ->)]%navigate_return_inv
         [(cls' & _ & Hk' & E) | (_ & -> & E)]%navigate_return_inv;
    simplify_eq; done.
Qed.

Lemma X3_navigate_injective_witness :
  CommandGraphRoot = CommandGraphRoot ∧ "group" = "group" ∧ Some "work" = Some "work".
Proof.
  apply (X3_navigate_injective CommandGraphRoot CommandGraphRoot "group" "group"
           (Some "work") (Some "work")
           (Container (CommandGraphObject _GroupGraphNode (Some "work") CommandGraphRoot)));
    vm_compute; reflexivity.
Defined.

(** ** Runs and the address they resolve *)

Section RunsMore.

Lemma final_node_app (start : _CommandGraphNode) (p1 p2 : list _CommandGraphNode) :
  final_node start (p1 ++ p2) = final_node (final_node start p1) p2.
Proof.
  unfold final_node. rewrite last_app. by destruct (last p2).
Qed.

(** Nothing can follow a call. *)
Lemma navigate_steps_call (nm : string) (p : CommandGraphContainer)
    (steps : list SelectorType) (produced : list _CommandGraphNode) :
  navigate_steps (CommandGraphCall nm p) steps = Return produced →
  steps = [] ∧ produced = [].
Proof. destruct steps as [|[k s] rest]; simpl; [by intros [= <-] | by intros [=]]. Qed.

(** The selector chain after a run that started at a container. *)
Lemma navigate_steps_selectors (steps : list SelectorType) :
  ∀ (c : CommandGraphContainer) (produced : list _CommandGraphNode),
    navigate_steps (Container c) steps = Return produced →
    match final_node (Container c) produced with
    | Container c' => Container.selectors c' = (Container.selectors c ++ steps)%list
    | CommandGraphCall nm p =>
        (Container.selectors c ++ steps)%list = (Container.selectors p ++ [(nm, None)])%list
    end.
Proof.
  induction steps as [|[k s] rest IH]; intros c produced H.
  - injection H as <-. simpl. by rewrite app_nil_r.
  - apply navigate_steps_cons_inv in H as (c0 & n & tail & [= <-] & Hn & Ht & ->).
    rewrite final_node_cons.
    apply navigate_return_inv in Hn as [(cls & _ & Hk & ->) | (_ & -> & ->)].
    + specialize (IH _ _ Ht).
      destruct (final_node _ tail) as [c'|nm p]; simpl in IH;
        rewrite <- app_assoc in IH; simpl in IH; by rewrite Hk in IH.
    + apply navigate_steps_call in Ht as [-> ->]. done.
Qed.

Lemma schema_valid_object (cls : ObjectClass) (s : option string)
    (p : CommandGraphContainer) :
  schema_valid (CommandGraphObject cls s p) = true ↔
  object_type cls ∈ Container.children p ∧ schema_valid p = true.
Proof.
  simpl. rewrite andb_true_iff, bool_decide_eq_true. done.
Qed.

Lemma navigate_schema_valid (c : CommandGraphContainer) (k : string)
    (s : option string) (n : _CommandGraphNode) :
  schema_valid c = true →
  Container.navigate c k s = Return n → node_schema_valid n = true.
Proof.
  intros Hc [(cls & Hin & Hk & ->) | (_ & -> & ->)]%navigate_return_inv; [|done].
  apply schema_valid_object. by rewrite Hk.
Qed.

Lemma widget_parent (p : CommandGraphContainer) :
  "widget" ∈ Container.children p → p = CommandGraphRoot.
Proof.
  destruct p as [|[] sel q]; [done|..]; simpl;
    rewrite ?elem_of_cons, elem_of_nil; intros H; exfalso;
    repeat destruct H as [H|H]; discriminate || contradiction.
Qed.

End RunsMore.

(** X4. Reading back the address.  After a run from the root that
    [navigate] carries out, the [selectors] of a resulting container are the
    steps taken; when the run ends in a call, the steps taken are the call's
    [selectors] followed by the call's name without a selector. *)
Theorem X4_selectors_of_run (steps : list SelectorType)
    (produced : list _CommandGraphNode) :
  navigate_steps (Container CommandGraphRoot) steps = Return produced →
  let node := final_node (Container CommandGraphRoot) produced in
  (is_container node = true → selectors node = steps) ∧
  (∀ nm, name node = Some nm → steps = (selectors node ++ [(nm, None)])%list).
Proof.
  intros H node. pose proof (navigate_steps_selectors _ _ _ H) as Hs.
  fold node in Hs. destruct node as [c'|nm p]; simpl in *.
  - split; [done | by intros nm [=]].
  - split; [by intros [=] | by intros ? [= <-]].
Qed.

Lemma X4_selectors_of_run_witness :
  [("group", Some "work"); ("info", None)]
  = (selectors
       (final_node (Container CommandGraphRoot)
          [ Container (CommandGraphObject _GroupGraphNode (Some "work") CommandGraphRoot);
            CommandGraphCall "info"
              (CommandGraphObject _GroupGraphNode (Some "work") CommandGraphRoot) ])
     ++ [("info", None)])%list.
Proof.
  apply (proj2 (X4_selectors_of_run [("group", Some "work"); ("info", None)]
                  [ Container (CommandGraphObject _GroupGraphNode (Some "work") CommandGraphRoot);
                    CommandGraphCall "info"
                      (CommandGraphObject _GroupGraphNode (Some "work") CommandGraphRoot) ]
                  eq_refl) "info").
  reflexivity.
Defined.

(** X5. The path of the node a run from the root ends at, container or call,
    is the formatted list of the steps taken. *)
Theorem X5_path_of_run (steps : list SelectorType)
    (produced : list _CommandGraphNode) :
  navigate_steps (Container CommandGraphRoot) steps = Return produced →
  path (final_node (Container CommandGraphRoot) produced) = _format_selectors steps.
Proof.
  intros H. pose proof (navigate_steps_selectors _ _ _ H) as Hs.
  destruct (final_node _ produced) as [c'|nm p]; simpl in Hs.
  - simpl. unfold Container.path. by rewrite Hs.
  - rewrite Hs, format_selectors_snoc. reflexivity.
Qed.

Lemma X5_path_of_run_witness :
  path (final_node (Container CommandGraphRoot)
          [ Container (CommandGraphObject _ScreenGraphNode (Some "1") CommandGraphRoot);
            Container (CommandGraphObject _LayoutGraphNode None
                         (CommandGraphObject _ScreenGraphNode (Some "1") CommandGraphRoot));
            CommandGraphCall "next"
              (CommandGraphObject _LayoutGraphNode None
                 (CommandGraphObject _ScreenGraphNode (Some "1") CommandGraphRoot)) ])
  = _format_selectors [("screen", Some "1"); ("layout", None); ("next", None)].
Proof.
  apply (X5_path_of_run [("screen", Some "1"); ("layout", None); ("next", None)]).
  vm_compute. reflexivity.
Defined.

(** X6. The selector chain determines what a container is, where [path]
    does not: two containers with equal [selectors] are of the same class,
    carry the same selector, list the same [children], and are both the root
    or both have parents, whose [selectors] are again equal. *)
Theorem X6_selectors_determine (c1 c2 : CommandGraphContainer) :
  Container.selectors c1 = Container.selectors c2 →
  node_object_type (Container c1) = node_object_type (Container c2) ∧
  Container.selector c1 = Container.selector c2 ∧
  Container.children c1 = Container.children c2 ∧
  (Container.selectors <$> Container.parent c1)
    = (Container.selectors <$> Container.parent c2).
Proof.
  destruct c1 as [|cls1 s1 p1], c2 as [|cls2 s2 p2]; simpl; intros H.
  - done.
  - symmetry in H. by apply app_eq_nil in H as [_ ?].
  - by apply app_eq_nil in H as [_ ?].
  - apply app_inj_tail in H as [Hp [= Hk ->]].
    apply object_type_inj in Hk as ->. by rewrite Hp.
Qed.

Lemma X6_selectors_determine_witness :
  Container.selector (CommandGraphObject _ScreenGraphNode (Some "1") CommandGraphRoot)
  = Container.selector (CommandGraphObject _ScreenGraphNode (Some "1") CommandGraphRoot).
Proof.
  apply (X6_selectors_determine
           (CommandGraphObject _ScreenGraphNode (Some "1") CommandGraphRoot)
           (CommandGraphObject _ScreenGraphNode (Some "1") CommandGraphRoot)).
  reflexivity.
Defined.

(** Two runs in sequence are one run over the concatenated steps. *)
Lemma navigate_steps_app (l1 l2 : list SelectorType) :
  ∀ (start : _CommandGraphNode) (p1 p2 : list _CommandGraphNode),
    navigate_steps start l1 = Return p1 →
    navigate_steps (final_node start p1) l2 = Return p2 →
    navigate_steps start (l1 ++ l2) = Return (p1 ++ p2)%list.
Proof.
  induction l1 as [|[k s] rest IH]; intros start p1 p2 H1 H2.
  - injection H1 as <-. exact H2.
  - apply navigate_steps_cons_inv in H1 as (c & n & tail & -> & Hn & Ht & ->).
    rewrite final_node_cons in H2.
    simpl. by rewrite Hn, (IH _ _ _ Ht H2).
Qed.

(** X8. Navigation keeps the schema: every node a run from the root
    produces hangs from a chain of objects each of a kind its parent lists
    in [children].  The constructors alone do not ensure this: a window
    object built directly under a bar object is not such a node. *)
Theorem X8_runs_keep_schema :
  (∀ (steps : list SelectorType) (produced : list _CommandGraphNode),
     navigate_steps (Container CommandGraphRoot) steps = Return produced →
     ∀ n, n ∈ produced → node_schema_valid n = true) ∧
  schema_valid
    (CommandGraphObject _WindowGraphNode None
       (CommandGraphObject _BarGraphNode None CommandGraphRoot)) = false.
Proof.
  split; [|vm_compute; reflexivity].
  assert (Hgen : ∀ (steps : list SelectorType) (start : _CommandGraphNode)
                   (produced : list _CommandGraphNode),
             node_schema_valid start = true →
             navigate_steps start steps = Return produced →
             ∀ n, n ∈ produced → node_schema_valid n = true).
  { induction steps as [|[k s] rest IH]; intros start produced Hv H n Hin.
    - injection H as <-. by apply elem_of_nil in Hin.
    - apply navigate_steps_cons_inv in H as (c & m & tail & -> & Hm & Ht & ->).
      pose proof (navigate_schema_valid _ _ _ _ Hv Hm) as Hvm.
      apply elem_of_cons in Hin as [-> | Hin]; [done|].
      by apply (IH _ _ Hvm Ht). }
  intros steps produced H. by apply (Hgen steps (Container CommandGraphRoot)).
Qed.

Lemma X8_runs_keep_schema_witness :
  node_schema_valid
    (Container (CommandGraphObject _BarGraphNode (Some "top")
                  (CommandGraphObject _ScreenGraphNode None CommandGraphRoot))) = true.
Proof.
  apply (proj1 X8_runs_keep_schema [("screen", None); ("bar", Some "top")]
           [ Container (CommandGraphObject _ScreenGraphNode None CommandGraphRoot);
             Container (CommandGraphObject _BarGraphNode (Some "top")
                          (CommandGraphObject _ScreenGraphNode None CommandGraphRoot)) ]).
  - vm_compute. reflexivity.
  - apply elem_of_cons. right. apply elem_of_cons. by left.
Defined.

(** X9. Replaying the selector chain.  For a container that respects the
    schema, the run from the root over the container's own [selectors]
    succeeds, takes one container-producing step per selector, and ends at a
    container with those same [selectors], the same class and selector and
    the same path. *)
Theorem X9_replay_selectors (c : CommandGraphContainer) :
  schema_valid c = true →
  ∃ (produced : list _CommandGraphNode) (c' : CommandGraphContainer),
    navigate_steps (Container CommandGraphRoot) (Container.selectors c) = Return produced ∧
    container_steps produced = length (Container.selectors c) ∧
    final_node (Container CommandGraphRoot) produced = Container c' ∧
    Container.selectors c' = Container.selectors c ∧
    node_object_type (Container c') = node_object_type (Container c) ∧
    Container.selector c' = Container.selector c ∧
    path (Container c') = path (Container c).
Proof.
  intros Hv.
  assert (Hrun : ∃ produced,
    navigate_steps (Container CommandGraphRoot) (Container.selectors c) = Return produced ∧
    final_node (Container CommandGraphRoot) produced = Container c).
  { induction c as [|cls s p IH].
    - by exists [].
    - apply schema_valid_object in Hv as [Hin Hp].
      destruct (IH Hp) as (produced & Hrun & Hfin).
      destruct (navigate_child p _ s Hin) as (cls' & Hk & Hn).
      apply object_type_inj in Hk as ->.
      assert (Hlast : navigate_steps (final_node (Container CommandGraphRoot) produced)
                        [(object_type cls, s)]
                      = Return [Container (CommandGraphObject cls s p)]).
      { rewrite Hfin. simpl. by rewrite Hn. }
      eexists. split; [exact (navigate_steps_app _ _ _ _ _ Hrun Hlast)|].
      rewrite final_node_app, Hfin. reflexivity. }
  destruct Hrun as (produced & Hrun & Hfin).
  exists produced, c. split; [exact Hrun|]. split; [|by rewrite Hfin].
  destruct (navigate_steps_measure _ _ _ Hrun) as (_ & _ & Hsel).
  rewrite Hfin in Hsel. simpl in Hsel. lia.
Qed.

Lemma X9_replay_selectors_witness :
  ∃ (produced : list _CommandGraphNode) (c' : CommandGraphContainer),
    navigate_steps (Container CommandGraphRoot)
      [("group", Some "work"); ("window", Some "7")] = Return produced ∧
    container_steps produced = 2 ∧
    final_node (Container CommandGraphRoot) produced = Container c' ∧
    Container.selectors c' = [("group", Some "work"); ("window", Some "7")] ∧
    node_object_type (Container c') = Some "window" ∧
    Container.selector c' = Some "7" ∧
    path (Container c') = "group[work].window[7]".
Proof.
  apply (X9_replay_selectors
           (CommandGraphObject _WindowGraphNode (Some "7")
              (CommandGraphObject _GroupGraphNode (Some "work") CommandGraphRoot))).
  vm_compute. reflexivity.
Defined.

(** X10. A widget object is only ever produced directly under the root: in
    any run from the root, a produced widget object has the root as its
    parent, and from a node other than the root the name [widget] is read as
    a command (or refused when a selector is given). *)
Theorem X10_widget_only_under_root :
  (∀ (steps : list SelectorType) (produced : list _CommandGraphNode)
     (s : option string) (p : CommandGraphContainer),
     navigate_steps (Container CommandGraphRoot) steps = Return produced →
     Container (CommandGraphObject _WidgetGraphNode s p) ∈ produced →
     p = CommandGraphRoot) ∧
  (∀ (c : CommandGraphContainer) (s : option string),
     c ≠ CommandGraphRoot →
     Container.navigate c "widget" s =
     match s with
     | None => Return (CommandGraphCall "widget" c)
     | Some _ => Raise (NotAnObject "widget")
     end).
Proof.
  split.
  - intros steps produced s p H Hin.
    assert (Hgen : ∀ (steps : list SelectorType) (start : _CommandGraphNode)
                     (produced : list _CommandGraphNode),
               navigate_steps start steps = Return produced →
               ∀ n, n ∈ produced → ∃ q, parent n = Some q ∧
                 (∀ cls t, n = Container (CommandGraphObject cls t q) →
                           object_type cls ∈ Container.children q)).
    { clear. induction steps as [|[k s] rest IH]; intros start produced H n Hin.
      - injection H as <-. by apply elem_of_nil in Hin.
      - apply navigate_steps_cons_inv in H as (c & m & tail & -> & Hm & Ht & ->).
        apply elem_of_cons in Hin as [-> | Hin]; [|by apply (IH _ _ Ht)].
        exists c. split; [by apply (navigate_parent _ _ _ _ Hm)|].
        intros cls t ->.
        apply navigate_return_inv in Hm as [(cls' & Hk & Hc & E) | (_ & _ & E)];
          [|discriminate].
        injection E as <- <-. by rewrite Hc. }
    destruct (Hgen _ _ _ H _ Hin) as (q & [= <-] & Hq).
    apply widget_parent. by apply (Hq _WidgetGraphNode s).
  - intros c s Hc.
    assert (Hout : "widget" ∉ Container.children c).
    { intros Hin. by apply widget_parent in Hin. }
    destruct s as [s|].
    + by apply navigate_selected_unknown.
    + by apply navigate_call.
Qed.

Lemma X10_widget_only_under_root_witness :
  Container.navigate (CommandGraphObject _ScreenGraphNode None CommandGraphRoot)
    "widget" (Some "clock")
  = Raise (NotAnObject "widget").
Proof.
  apply (proj2 X10_widget_only_under_root
           (CommandGraphObject _ScreenGraphNode None CommandGraphRoot) (Some "clock")).
  discriminate.
Defined.

(** X11. No kind lists itself as a child, and every child of an object is
    also a child of the root.  So from an object, the name of the object's
    own kind is never an object: without a selector it is a call, with one
    it is refused. *)
Theorem X11_no_self_child (cls : ObjectClass) (sel : option string)
    (p : CommandGraphContainer) :
  let obj := CommandGraphObject cls sel p in
  (object_type cls ∉ Container.children obj) ∧
  (∀ k, k ∈ Container.children obj → k ∈ Container.children CommandGraphRoot) ∧
  Container.navigate obj (object_type cls) None
    = Return (CommandGraphCall (object_type cls) obj) ∧
  (∀ s : string,
     Container.navigate obj (object_type cls) (Some s)
     = Raise (NotAnObject (object_type cls))).
Proof.
  intros obj.
  assert (Hout : object_type cls ∉ Container.children obj).
  { destruct cls; simpl; rewrite ?elem_of_cons, elem_of_nil; intros H;
      repeat destruct H as [H|H]; discriminate || contradiction. }
  split; [exact Hout|]. split; [|split].
  - intros k Hk. destruct (children_are_kinds _ _ Hk) as [cls' <-].
    destruct cls'; simpl; rewrite !elem_of_cons; tauto.
  - by apply navigate_call.
  - intros s. by apply navigate_selected_unknown.
Qed.

(** X12. The empty path.  A node has the empty string as its path exactly
    when it is the root or the call with the empty name on the root; every
    other node has a non-empty path. *)
Theorem X12_path_empty (n : _CommandGraphNode) :
  path n = "" ↔
  n = Container CommandGraphRoot ∨ n = CommandGraphCall "" CommandGraphRoot.
Proof.
  destruct n as [c|nm p]; simpl.
  - rewrite container_path_empty. split.
    + intros ->. by left.
    + by intros [[= ->] | [=]].
  - destruct (Container.path p) as [|ch rest] eqn:Hp.
    + apply container_path_empty in Hp as ->. split.
      * intros ->. by right.
      * by intros [[=] | [= ->]].
    + split; [intros E; apply append_empty_inv in E as [[=] _]|].
      intros [[=] | [= -> ->]]. discriminate Hp.
Qed.

(** X13. Every step of a selector chain names one of the six kinds, for a
    node of any kind: command names never enter [selectors]. *)
Theorem X13_selectors_are_kinds (n : _CommandGraphNode) (k : string)
    (s : option string) :
  (k, s) ∈ selectors n →
  k ∈ Container.children CommandGraphRoot ∧ is_Some (_CommandGraphMap !! k).
Proof.
  assert (Hc : ∀ c : CommandGraphContainer,
             (k, s) ∈ Container.selectors c → ∃ cls, object_type cls = k).
  { induction c as [|cls sel p IH]; simpl; intros H.
    - by apply elem_of_nil in H.
    - apply elem_of_app in H as [H|H]; [by apply IH|].
      apply list_elem_of_singleton in H as [= -> ->]. by exists cls. }
  intros H.
  assert (Hk : ∃ cls, object_type cls = k) by (destruct n; by apply Hc in H).
  destruct Hk as [cls <-]. split.
  - destruct cls; simpl; rewrite !elem_of_cons; tauto.
  - rewrite map_lookup_object_type. eauto.
Qed.

Lemma X13_selectors_are_kinds_witness :
  "group" ∈ Container.children CommandGraphRoot ∧ is_Some (_CommandGraphMap !! "group").
Proof.
  apply (X13_selectors_are_kinds
           (CommandGraphCall "info"
              (CommandGraphObject _GroupGraphNode (Some "work") CommandGraphRoot))
           "group" (Some "work")).
  simpl. apply elem_of_cons. by left.
Defined.

Lemma X11_no_self_child_witness :
  "bar" ∈ Container.children CommandGraphRoot.
Proof.
  apply (proj1 (proj2 (X11_no_self_child _ScreenGraphNode (Some "1") CommandGraphRoot)) "bar").
  simpl. rewrite !elem_of_cons. tauto.
Defined.
